(** * immuni_analytics.core.managers: the connection registry

    A shallow embedding of [Managers] (immuni_analytics/core/managers.py):
    four optional handles, four guarded accessors, and the asynchronous
    [initialize] / [teardown] pair.

    The coroutines run on one logical thread: every [await] runs its callee to
    completion before the next statement, so a coroutine body is modelled as a
    computation in a state-and-exception monad.  The state is the registry
    object [self] together with the log of the calls made to the external
    collaborators (mongoengine, aioredis, the base class of immuni_common). *)

From Stdlib Require Import String List Bool Arith.
Import ListNotations.
Open Scope string_scope.
Open Scope list_scope.

(** ** Handles, exceptions, configuration *)

(** A [pymongo.MongoClient] object, identified by its identity. *)
Record MongoClient : Type := mkMongoClient { mongo_id : nat }.

(** An [aioredis.Redis] pool object, identified by its identity. *)
Record Redis : Type := mkRedis { redis_id : nat }.

(** A raised Python exception: its class and its message. *)
Record Exn : Type := mkExn { exc_type : string; exc_msg : string }.

Definition RuntimeError (msg : string) : Exn := mkExn "RuntimeError" msg.

(** Attribute access on [None]: what Python raises for [None.close()]. *)
Definition AttributeError (attr : string) : Exn :=
  mkExn "AttributeError" ("'NoneType' object has no attribute '" ++ attr ++ "'").

(** The constants read from [immuni_analytics.core.config]. *)
Record Config : Type := mkConfig {
  ANALYTICS_MONGO_URL : string;
  ANALYTICS_BROKER_REDIS_URL : string;
  CELERY_BROKER_REDIS_URL_AUTHORIZATION_IOS : string;
  CELERY_BROKER_REDIS_URL_AUTHORIZATION_ANDROID : string
}.

(** ** The registry object *)

(** The four class attributes, each [Optional[...] = None]. *)
Record Managers : Type := mkManagers {
  _analytics_mongo : option MongoClient;
  _analytics_redis : option Redis;
  _authorization_ios_redis : option Redis;
  _authorization_android_redis : option Redis
}.

(** [managers = Managers()]: the module-level singleton as created. *)
Definition managers : Managers := mkManagers None None None None.

(** ** Calls to the external collaborators *)

Inductive Op : Type :=
| BaseInitialize
| Connect (host : string)
| CreateRedisPool (address encoding : string)
| BaseTeardown
| MongoClose (client : MongoClient)
| RedisClose (pool : Redis)
| RedisWaitClosed (pool : Redis).

(** How a call ended. *)
Inductive Outcome : Type :=
| Raised (e : Exn)
| ReturnedNone
| ReturnedMongo (client : MongoClient)
| ReturnedRedis (pool : Redis).

(** One completed call: the call and how it ended. *)
Record Event : Type := mkEvent { ev_op : Op; ev_outcome : Outcome }.

(** The collaborators.  Each answer may depend on everything that happened
    before (the log of completed calls), so that, say, closing a pool twice
    may fail the second time.  A call returns a value of its declared type
    or raises; [connect] and [create_redis_pool] never return [None].  The
    hooks of [BaseManagers] (immuni_common) are taken not to assign the four
    private fields of the subclass. *)
Record Collaborators : Type := mkCollaborators {
  super_initialize : list Event -> Exn + unit;
  connect : list Event -> string -> Exn + MongoClient;
  create_redis_pool : list Event -> string -> string -> Exn + Redis;
  super_teardown : list Event -> Exn + unit;
  mongo_close : list Event -> MongoClient -> Exn + unit;
  redis_close : list Event -> Redis -> Exn + unit;
  redis_wait_closed : list Event -> Redis -> Exn + unit
}.

(** ** The monad of coroutine bodies *)

Record World : Type := mkWorld { self : Managers; log : list Event }.

Definition M (A : Type) : Type := World -> (Exn + A) * World.

Definition ret {A : Type} (a : A) : M A := fun w => (inr a, w).

Definition raise {A : Type} (e : Exn) : M A := fun w => (inl e, w).

Definition bind {A B : Type} (c : M A) (k : A -> M B) : M B :=
  fun w =>
    match c w with
    | (inl e, w') => (inl e, w')
    | (inr a, w') => k a w'
    end.

Declare Scope managers_scope.
Delimit Scope managers_scope with managers.
Notation "x <- c ;; k" := (bind c (fun x => k))
  (at level 61, c at next level, right associativity) : managers_scope.
Notation "c ;; k" := (bind c (fun _ => k))
  (at level 61, right associativity) : managers_scope.
Open Scope managers_scope.

(** Read the registry object. *)
Definition get_self : M Managers := fun w => (inr (self w), w).

(** Assign one attribute of the registry object. *)
Definition set_self (f : Managers -> Managers) : M unit :=
  fun w => (inr tt, mkWorld (f (self w)) (log w)).

Definition outcome_of {A : Type} (inj : A -> Outcome) (r : Exn + A) : Outcome :=
  match r with
  | inl e => Raised e
  | inr a => inj a
  end.

(** Call a collaborator and run it to completion: ask it for its answer in
    the present history, record the completed call, and return or raise. *)
Definition call {A : Type} (op : Op) (inj : A -> Outcome)
    (answer : list Event -> Exn + A) : M A :=
  fun w =>
    let r := answer (log w) in
    (r, mkWorld (self w) (log w ++ [mkEvent op (outcome_of inj r)])).

Definition set__analytics_mongo (v : option MongoClient) (m : Managers) : Managers :=
  mkManagers v (_analytics_redis m) (_authorization_ios_redis m)
             (_authorization_android_redis m).

Definition set__analytics_redis (v : option Redis) (m : Managers) : Managers :=
  mkManagers (_analytics_mongo m) v (_authorization_ios_redis m)
             (_authorization_android_redis m).

Definition set__authorization_ios_redis (v : option Redis) (m : Managers) : Managers :=
  mkManagers (_analytics_mongo m) (_analytics_redis m) v
             (_authorization_android_redis m).

Definition set__authorization_android_redis (v : option Redis) (m : Managers) : Managers :=
  mkManagers (_analytics_mongo m) (_analytics_redis m)
             (_authorization_ios_redis m) v.

(** ** The accessors (properties of [Managers]) *)

Definition analytics_mongo (m : Managers) : Exn + MongoClient :=
  match _analytics_mongo m with
  | None => inl (RuntimeError "Cannot use MongoDB manager before initializing it.")
  | Some h => inr h
  end.

Definition analytics_redis (m : Managers) : Exn + Redis :=
  match _analytics_redis m with
  | None => inl (RuntimeError "Attempting to use Analytics redis before initialization")
  | Some h => inr h
  end.

Definition authorization_ios_redis (m : Managers) : Exn + Redis :=
  match _authorization_ios_redis m with
  | None =>
      inl (RuntimeError "Attempting to use Authorization iOS redis before initialization")
  | Some h => inr h
  end.

Definition authorization_android_redis (m : Managers) : Exn + Redis :=
  match _authorization_android_redis m with
  | None =>
      inl (RuntimeError
             "Attempting to use Authorization Android redis before initialization")
  | Some h => inr h
  end.

(** ** The lifecycle methods *)

Section Lifecycle.

Variable config : Config.
Variable ext : Collaborators.

Definition encoding_utf8 : string := "utf-8".

(** [aioredis.create_redis_pool(address=..., encoding="utf-8")], awaited. *)
Definition await_create_redis_pool (address : string) : M Redis :=
  call (CreateRedisPool address encoding_utf8) ReturnedRedis
       (fun hist => create_redis_pool ext hist address encoding_utf8).

(** [async def initialize(self, initialize_mongo: bool = False)]. *)
Definition initialize (initialize_mongo : bool) : M unit :=
  call BaseInitialize (fun _ => ReturnedNone) (super_initialize ext) ;;
  (if initialize_mongo then
     h <- call (Connect (ANALYTICS_MONGO_URL config)) ReturnedMongo
               (fun hist => connect ext hist (ANALYTICS_MONGO_URL config)) ;;
     set_self (set__analytics_mongo (Some h))
   else ret tt) ;;
  h <- await_create_redis_pool (ANALYTICS_BROKER_REDIS_URL config) ;;
  set_self (set__analytics_redis (Some h)) ;;
  h <- await_create_redis_pool (CELERY_BROKER_REDIS_URL_AUTHORIZATION_IOS config) ;;
  set_self (set__authorization_ios_redis (Some h)) ;;
  h <- await_create_redis_pool (CELERY_BROKER_REDIS_URL_AUTHORIZATION_ANDROID config) ;;
  set_self (set__authorization_android_redis (Some h)).

(** Evaluate [self.<field>.<attr>]: the attribute lookup fails on [None]. *)
Definition attr_of {A : Type} (field : Managers -> option A) (attr : string) : M A :=
  m <- get_self ;;
  match field m with
  | Some h => ret h
  | None => raise (AttributeError attr)
  end.

(** [self.<field>.close()] followed by [await self.<field>.wait_closed()]. *)
Definition close_redis (field : Managers -> option Redis) : M unit :=
  p <- attr_of field "close" ;;
  call (RedisClose p) (fun _ => ReturnedNone) (fun hist => redis_close ext hist p) ;;
  q <- attr_of field "wait_closed" ;;
  call (RedisWaitClosed q) (fun _ => ReturnedNone)
       (fun hist => redis_wait_closed ext hist q).

(** [if self.<field> is not None: body]. *)
Definition if_not_None {A : Type} (field : Managers -> option A) (body : M unit)
  : M unit :=
  m <- get_self ;;
  match field m with
  | Some _ => body
  | None => ret tt
  end.

(** [async def teardown(self)]. *)
Definition teardown : M unit :=
  call BaseTeardown (fun _ => ReturnedNone) (super_teardown ext) ;;
  if_not_None _analytics_mongo
    (c <- attr_of _analytics_mongo "close" ;;
     call (MongoClose c) (fun _ => ReturnedNone) (fun hist => mongo_close ext hist c)) ;;
  if_not_None _analytics_redis (close_redis _analytics_redis) ;;
  if_not_None _authorization_ios_redis (close_redis _authorization_ios_redis) ;;
  if_not_None _authorization_android_redis
    (close_redis _authorization_android_redis).

End Lifecycle.

(** ** Specification vocabulary: plans of calls, run in sequence *)

(** The answer a collaborator gives to a call issued in history [hist]. *)
Definition answer_of (ext : Collaborators) (hist : list Event) (op : Op) : Outcome :=
  match op with
  | BaseInitialize => outcome_of (fun _ => ReturnedNone) (super_initialize ext hist)
  | Connect host => outcome_of ReturnedMongo (connect ext hist host)
  | CreateRedisPool address encoding =>
      outcome_of ReturnedRedis (create_redis_pool ext hist address encoding)
  | BaseTeardown => outcome_of (fun _ => ReturnedNone) (super_teardown ext hist)
  | MongoClose c => outcome_of (fun _ => ReturnedNone) (mongo_close ext hist c)
  | RedisClose p => outcome_of (fun _ => ReturnedNone) (redis_close ext hist p)
  | RedisWaitClosed p =>
      outcome_of (fun _ => ReturnedNone) (redis_wait_closed ext hist p)
  end.

(** Strictly sequential execution of a list of calls: each call is issued in
    the history that already holds the completion of every call before it,
    and the first call that raises ends the run with that exception. *)
Fixpoint run_plan (ext : Collaborators) (hist : list Event) (plan : list Op)
  : (Exn + unit) * list Event :=
  match plan with
  | [] => (inr tt, [])
  | op :: rest =>
      let e := mkEvent op (answer_of ext hist op) in
      match ev_outcome e with
      | Raised x => (inl x, [e])
      | _ => let (r, evs) := run_plan ext (hist ++ [e]) rest in (r, e :: evs)
      end
  end.

(** The calls of [initialize], in the order of the method body. *)
Definition initialize_plan (config : Config) (initialize_mongo : bool) : list Op :=
  BaseInitialize
    :: (if initialize_mongo then [Connect (ANALYTICS_MONGO_URL config)] else [])
    ++ [CreateRedisPool (ANALYTICS_BROKER_REDIS_URL config) encoding_utf8;
        CreateRedisPool (CELERY_BROKER_REDIS_URL_AUTHORIZATION_IOS config) encoding_utf8;
        CreateRedisPool (CELERY_BROKER_REDIS_URL_AUTHORIZATION_ANDROID config)
                        encoding_utf8].

Definition mongo_plan (field : option MongoClient) : list Op :=
  match field with
  | Some c => [MongoClose c]
  | None => []
  end.

Definition pool_plan (field : option Redis) : list Op :=
  match field with
  | Some p => [RedisClose p; RedisWaitClosed p]
  | None => []
  end.

(** The closing calls of [teardown] for a registry, after the base hook. *)
Definition close_plan (m : Managers) : list Op :=
  mongo_plan (_analytics_mongo m)
    ++ pool_plan (_analytics_redis m)
    ++ pool_plan (_authorization_ios_redis m)
    ++ pool_plan (_authorization_android_redis m).

Definition teardown_plan (m : Managers) : list Op := BaseTeardown :: close_plan m.

Definition is_close (op : Op) : bool :=
  match op with
  | MongoClose _ | RedisClose _ | RedisWaitClosed _ => true
  | _ => false
  end.

Definition is_create_redis_pool (op : Op) : bool :=
  match op with
  | CreateRedisPool _ _ => true
  | _ => false
  end.

(** The events a fully successful [initialize] appends to the log. *)
Definition initialize_events (config : Config) (initialize_mongo : bool)
    (hm : MongoClient) (pa pi pd : Redis) : list Event :=
  mkEvent BaseInitialize ReturnedNone
    :: (if initialize_mongo
        then [mkEvent (Connect (ANALYTICS_MONGO_URL config)) (ReturnedMongo hm)]
        else [])
    ++ [mkEvent (CreateRedisPool (ANALYTICS_BROKER_REDIS_URL config) encoding_utf8)
                (ReturnedRedis pa);
        mkEvent (CreateRedisPool (CELERY_BROKER_REDIS_URL_AUTHORIZATION_IOS config)
                                 encoding_utf8)
                (ReturnedRedis pi);
        mkEvent (CreateRedisPool (CELERY_BROKER_REDIS_URL_AUTHORIZATION_ANDROID config)
                                 encoding_utf8)
                (ReturnedRedis pd)].

(** An event of a call that returned normally with no value. *)
Definition done (op : Op) : Event := mkEvent op ReturnedNone.

(** ** Test doubles *)

Definition test_config : Config :=
  mkConfig "mongodb://localhost:27017/analytics"
           "redis://localhost:6379/0"
           "redis://localhost:6379/1"
           "redis://localhost:6379/2".

(** Every call succeeds; a new handle is numbered by the length of the
    history in which it is created, so handles are pairwise distinct. *)
Definition ok_ext : Collaborators :=
  mkCollaborators
    (fun _ => inr tt)
    (fun hist _ => inr (mkMongoClient (length hist)))
    (fun hist _ _ => inr (mkRedis (length hist)))
    (fun _ => inr tt)
    (fun _ _ => inr tt)
    (fun _ _ => inr tt)
    (fun _ _ => inr tt).

Definition ConnectionRefusedError : Exn :=
  mkExn "ConnectionRefusedError" "[Errno 111] Connection refused".

(** As [ok_ext], but the broker at the analytics address is down. *)
Definition analytics_down_ext : Collaborators :=
  mkCollaborators
    (fun _ => inr tt)
    (fun hist _ => inr (mkMongoClient (length hist)))
    (fun hist address _ =>
       if String.eqb address (ANALYTICS_BROKER_REDIS_URL test_config)
       then inl ConnectionRefusedError
       else inr (mkRedis (length hist)))
    (fun _ => inr tt)
    (fun _ _ => inr tt)
    (fun _ _ => inr tt)
    (fun _ _ => inr tt).

Definition ConnectionClosedError : Exn :=
  mkExn "ConnectionClosedError" "Connection closed by server".

(** As [ok_ext], but waiting for the closure of pool [bad] fails. *)
Definition wait_fails_ext (bad : nat) : Collaborators :=
  mkCollaborators
    (fun _ => inr tt)
    (fun hist _ => inr (mkMongoClient (length hist)))
    (fun hist _ _ => inr (mkRedis (length hist)))
    (fun _ => inr tt)
    (fun _ _ => inr tt)
    (fun _ _ => inr tt)
    (fun _ p => if Nat.eqb (redis_id p) bad then inl ConnectionClosedError else inr tt).

(** The process right after module load: registry empty, nothing called. *)
Definition start : World := mkWorld managers [].

(** The result and the final world of two coroutines run one after the other. *)
Definition then_ {A B : Type} (c : M A) (k : M B) : M B := c ;; k.

(** ** Specification vocabulary: properties *)

(** [accessor] guards [field]: on every registry it raises a [RuntimeError]
    exactly when the field is [None], and returns exactly the stored handle
    when the field holds one. *)
Definition guards {A : Type} (field : Managers -> option A)
    (accessor : Managers -> Exn + A) : Prop :=
  forall m,
    (field m = None <-> exists msg, accessor m = inl (RuntimeError msg))
    /\ (forall h, field m = Some h <-> accessor m = inr h).

(** The coroutine fragment [c], started in [w], makes the calls of [plan] in
    sequence, answered by [ext], and leaves the registry object alone. *)
Definition runs (ext : Collaborators) (c : M unit) (plan : list Op) (w : World) : Prop :=
  c w = (fst (run_plan ext (log w) plan),
         mkWorld (self w) (log w ++ snd (run_plan ext (log w) plan))).

(** Every closing call ([close], [wait_closed]) returns normally, whatever
    happened before. *)
Definition closes_succeed (ext : Collaborators) : Prop :=
  forall hist op, is_close op = true -> answer_of ext hist op = ReturnedNone.

(** ** Test scenarios *)

(** The world in which the wait for the closure of the iOS pool fails. *)
Definition ios_wait_fails : World :=
  snd (initialize test_config (wait_fails_ext 3) true start).

(** The process after a full [initialize] followed by [teardown], every call
    having succeeded. *)
Definition after_lifecycle : (Exn + unit) * World :=
  then_ (initialize test_config ok_ext true) (teardown ok_ext) start.

(** ** Specification vocabulary: handles obtained and handles held *)

(** The document-store clients that the logged calls returned, in order. *)
Fixpoint created_clients (evs : list Event) : list MongoClient :=
  match evs with
  | [] => []
  | ev :: rest =>
      match ev_outcome ev with
      | ReturnedMongo c => c :: created_clients rest
      | _ => created_clients rest
      end
  end.

(** The broker pools that the logged calls returned, in order. *)
Fixpoint created_pools (evs : list Event) : list Redis :=
  match evs with
  | [] => []
  | ev :: rest =>
      match ev_outcome ev with
      | ReturnedRedis p => p :: created_pools rest
      | _ => created_pools rest
      end
  end.

(** The two calls that close one pool. *)
Definition close_calls (p : Redis) : list Op := [RedisClose p; RedisWaitClosed p].

Definition present {A : Type} (field : option A) : list A :=
  match field with
  | Some h => [h]
  | None => []
  end.

(** The pools a registry holds, in the order [teardown] visits the fields. *)
Definition present_pools (m : Managers) : list Redis :=
  present (_analytics_redis m)
    ++ present (_authorization_ios_redis m)
    ++ present (_authorization_android_redis m).

Definition is_connect (op : Op) : bool :=
  match op with
  | Connect _ => true
  | _ => false
  end.

(** The calls that only [teardown] makes. *)
Definition is_teardown_call (op : Op) : bool :=
  match op with
  | BaseTeardown | MongoClose _ | RedisClose _ | RedisWaitClosed _ => true
  | _ => false
  end.

Definition raised (o : Outcome) : bool :=
  match o with
  | Raised _ => true
  | _ => false
  end.

Definition TimeoutError : Exn := mkExn "TimeoutError" "timed out".

(** As [ok_ext], but the call number [n] of the process (counting from 0)
    fails, whichever call it is. *)
Definition fails_at (n : nat) : Collaborators :=
  let answer (A : Type) (hist : list Event) (a : A) : Exn + A :=
    if Nat.eqb (length hist) n then inl TimeoutError else inr a in
  mkCollaborators
    (fun hist => answer unit hist tt)
    (fun hist _ => answer MongoClient hist (mkMongoClient (length hist)))
    (fun hist _ _ => answer Redis hist (mkRedis (length hist)))
    (fun hist => answer unit hist tt)
    (fun hist _ => answer unit hist tt)
    (fun hist _ => answer unit hist tt)
    (fun hist _ => answer unit hist tt).

(** ** Proof support *)

Lemma app_one_assoc (A : Type) (l : list A) (x : A) (r : list A) :
  (l ++ [x]) ++ r = l ++ x :: r.
Proof. rewrite <- app_assoc. reflexivity. Qed.

(** Unfold the monad and the lifecycle methods down to the collaborators'
    answers. *)
Ltac unfold_run :=
  cbv beta iota zeta delta
    [initialize teardown await_create_redis_pool close_redis if_not_None attr_of
     bind call ret raise get_self set_self then_
     set__analytics_mongo set__analytics_redis set__authorization_ios_redis
     set__authorization_android_redis];
  cbn [self log fst snd _analytics_mongo _analytics_redis
       _authorization_ios_redis _authorization_android_redis].

(** Split on the next collaborator answer the goal depends on. *)
Ltac split_answer ext :=
  match goal with
  | |- context [match super_initialize ext ?h with _ => _ end] =>
      destruct (super_initialize ext h) as [? | []] eqn:?
  | |- context [match connect ext ?h ?u with _ => _ end] =>
      destruct (connect ext h u) as [? | ?] eqn:?
  | |- context [match create_redis_pool ext ?h ?a ?e with _ => _ end] =>
      destruct (create_redis_pool ext h a e) as [? | ?] eqn:?
  | |- context [match super_teardown ext ?h with _ => _ end] =>
      destruct (super_teardown ext h) as [? | []] eqn:?
  | |- context [match mongo_close ext ?h ?c with _ => _ end] =>
      destruct (mongo_close ext h c) as [? | []] eqn:?
  | |- context [match redis_close ext ?h ?p with _ => _ end] =>
      destruct (redis_close ext h p) as [? | []] eqn:?
  | |- context [match redis_wait_closed ext ?h ?p with _ => _ end] =>
      destruct (redis_wait_closed ext h p) as [? | []] eqn:?
  end;
  cbn [self log fst snd outcome_of ev_outcome ev_op
       _analytics_mongo _analytics_redis
       _authorization_ios_redis _authorization_android_redis].

(** *** Concrete runs against the test doubles *)

Example initialize_full_run :
  initialize test_config ok_ext true start
  = (inr tt,
     mkWorld (mkManagers (Some (mkMongoClient 1)) (Some (mkRedis 2))
                         (Some (mkRedis 3)) (Some (mkRedis 4)))
             (initialize_events test_config true (mkMongoClient 1) (mkRedis 2)
                                (mkRedis 3) (mkRedis 4))).
Proof. reflexivity. Qed.

Example initialize_without_mongo_run :
  initialize test_config ok_ext false start
  = (inr tt,
     mkWorld (mkManagers None (Some (mkRedis 1)) (Some (mkRedis 2))
                         (Some (mkRedis 3)))
             (initialize_events test_config false (mkMongoClient 0) (mkRedis 1)
                                (mkRedis 2) (mkRedis 3))).
Proof. reflexivity. Qed.

Example teardown_of_empty_registry_run :
  teardown ok_ext start = (inr tt, mkWorld managers [done BaseTeardown]).
Proof. reflexivity. Qed.

Example teardown_wait_failure_run :
  map ev_op (log (snd (teardown (wait_fails_ext 3) ios_wait_fails)))
  = initialize_plan test_config true
    ++ [BaseTeardown; MongoClose (mkMongoClient 1);
        RedisClose (mkRedis 2); RedisWaitClosed (mkRedis 2);
        RedisClose (mkRedis 3); RedisWaitClosed (mkRedis 3)].
Proof. reflexivity. Qed.

Section Refinement.

Variable config : Config.
Variable ext : Collaborators.

(** [initialize] makes exactly the calls of its plan, strictly in sequence,
    and ends as the sequential run of the plan ends. *)
Lemma initialize_runs_plan (b : bool) (w : World) :
  fst (initialize config ext b w)
    = fst (run_plan ext (log w) (initialize_plan config b))
  /\ log (snd (initialize config ext b w))
    = log w ++ snd (run_plan ext (log w) (initialize_plan config b)).
Proof.
  destruct w as [m l]. unfold initialize_plan.
  destruct b; unfold_run; cbn [run_plan app answer_of ev_outcome ev_op];
    repeat (split_answer ext);
    cbn [fst snd log]; rewrite ?app_one_assoc; split; reflexivity.
Qed.

(** A successful [initialize]: the answers it got and the world it leaves. *)
Lemma initialize_ok (b : bool) (w w' : World) :
  initialize config ext b w = (inr tt, w') ->
  exists hm pa pi pd,
    w' = mkWorld (mkManagers (if b then Some hm else _analytics_mongo (self w))
                             (Some pa) (Some pi) (Some pd))
                 (log w ++ initialize_events config b hm pa pi pd).
Proof.
  destruct w as [m l]. unfold initialize_events.
  destruct b; unfold_run; repeat (split_answer ext);
    intros E; inversion E; subst; clear E;
    rewrite ?app_one_assoc; cbn [app].
  - eexists _, _, _, _. reflexivity.
  - exists (mkMongoClient 0). eexists _, _, _. reflexivity.
Qed.

End Refinement.

(** *** Sequential runs of plans *)

(** A run whose every call returns nothing logs the whole plan. *)
Lemma run_plan_all_done (ext : Collaborators) (plan : list Op) :
  forall hist,
    (forall before op after,
        plan = before ++ op :: after ->
        answer_of ext (hist ++ map done before) op = ReturnedNone) ->
    run_plan ext hist plan = (inr tt, map done plan).
Proof.
  induction plan as [| op rest IH]; intros hist H; cbn [run_plan map].
  - reflexivity.
  - cbn [ev_outcome].
    pose proof (H [] op rest eq_refl) as H0. cbn [map] in H0.
    rewrite app_nil_r in H0. rewrite H0.
    rewrite (IH (hist ++ [mkEvent op ReturnedNone])).
    + reflexivity.
    + intros before op' after E.
      specialize (H (op :: before) op' after).
      cbn [map app] in H. rewrite app_one_assoc. apply H.
      rewrite E. reflexivity.
Qed.

(** A run in which the calls of [before] return nothing and the next call
    raises stops there: nothing of [after] is called. *)
Lemma run_plan_stops (ext : Collaborators) (before : list Op) :
  forall hist op after e,
    run_plan ext hist before = (inr tt, map done before) ->
    answer_of ext (hist ++ map done before) op = Raised e ->
    run_plan ext hist (before ++ op :: after)
    = (inl e, map done before ++ [mkEvent op (Raised e)]).
Proof.
  induction before as [| b rest IH]; intros hist op after e Hb Hop;
    cbn [app map run_plan ev_outcome] in *.
  - rewrite app_nil_r in Hop. rewrite Hop. reflexivity.
  - destruct (answer_of ext hist b) eqn:Eb; try discriminate;
      destruct (run_plan ext (hist ++ [mkEvent b _]) rest) as [r evs] eqn:Er;
      inversion Hb; subst; clear Hb.
    unfold done in Er at 1. 
    rewrite (IH (hist ++ [mkEvent b ReturnedNone]) op after e).
    + reflexivity.
    + exact Er.
    + rewrite app_one_assoc. exact Hop.
Qed.

(** Running two plans one after the other. *)
Lemma run_plan_app (ext : Collaborators) (p1 p2 : list Op) :
  forall hist,
    run_plan ext hist (p1 ++ p2)
    = match run_plan ext hist p1 with
      | (inl e, evs) => (inl e, evs)
      | (inr _, evs) =>
          let (r, evs2) := run_plan ext (hist ++ evs) p2 in (r, evs ++ evs2)
      end.
Proof.
  induction p1 as [| op rest IH]; intros hist; cbn [app run_plan ev_outcome].
  - rewrite app_nil_r. destruct (run_plan ext hist p2). reflexivity.
  - destruct (answer_of ext hist op) eqn:Eop; try reflexivity;
      rewrite IH;
      destruct (run_plan ext (hist ++ [mkEvent op _]) rest) as [[e | u] evs];
      try reflexivity;
      rewrite app_one_assoc;
      destruct (run_plan ext _ p2); reflexivity.
Qed.

(** *** What a sequential run logs *)

(** The calls logged by a run are an initial part of the plan, and the whole
    plan when the run returns. *)
Lemma run_plan_ops (ext : Collaborators) (plan : list Op) :
  forall hist,
    (exists rest, plan = map ev_op (snd (run_plan ext hist plan)) ++ rest)
    /\ (fst (run_plan ext hist plan) = inr tt ->
        map ev_op (snd (run_plan ext hist plan)) = plan).
Proof.
  induction plan as [| op rest IH]; intros hist; cbn [run_plan ev_outcome].
  - split; [exists []; reflexivity | reflexivity].
  - destruct (answer_of ext hist op) eqn:Eop;
      try (destruct (IH (hist ++ [mkEvent op (answer_of ext hist op)]))
             as [[tl Htl] Hok];
           rewrite Eop in Htl, Hok;
           destruct (run_plan ext (hist ++ [mkEvent op _]) rest) as [r evs];
           cbn [fst snd map ev_op app] in *;
           split;
           [ exists tl; rewrite <- Htl; reflexivity
           | intros Hr; rewrite (Hok Hr); reflexivity ]).
    cbn [fst snd map ev_op app]. split; [exists rest; reflexivity |].
    intros H; discriminate H.
Qed.

(** Every logged call was answered in the history that holds the completion
    of all the calls logged before it. *)
Lemma run_plan_sequential (ext : Collaborators) (plan : list Op) :
  forall hist k ev,
    nth_error (snd (run_plan ext hist plan)) k = Some ev ->
    ev_outcome ev
    = answer_of ext (hist ++ firstn k (snd (run_plan ext hist plan))) (ev_op ev).
Proof.
  induction plan as [| op rest IH]; intros hist k ev; cbn [run_plan ev_outcome].
  - destruct k; discriminate.
  - assert (Hhead : forall tl e0,
               nth_error (mkEvent op (answer_of ext hist op) :: tl) 0 = Some e0 ->
               ev_outcome e0
               = answer_of ext
                   (hist ++ firstn 0 (mkEvent op (answer_of ext hist op) :: tl))
                   (ev_op e0)).
    { intros tl e0 H. inversion H; subst. cbn [firstn ev_outcome ev_op].
      rewrite app_nil_r. reflexivity. }
    destruct (answer_of ext hist op) eqn:Eop;
      try (specialize (IH (hist ++ [mkEvent op (answer_of ext hist op)]));
           rewrite Eop in IH;
           destruct (run_plan ext (hist ++ [mkEvent op _]) rest) as [r evs];
           cbn [snd] in *;
           destruct k as [| k];
           [ apply Hhead
           | cbn [nth_error firstn]; intros H;
             rewrite <- app_one_assoc; apply IH; exact H ]).
    cbn [snd]. destruct k as [| k]; [apply Hhead |].
    cbn [nth_error]. destruct k; discriminate.
Qed.

(** A sequential run makes headway: either every call of the plan was made
    and returned, and the run returns; or the calls were made up to one that
    raised, nothing after it, and the run raises that exception. *)
Lemma run_plan_progress (ext : Collaborators) (plan : list Op) :
  forall hist,
    (fst (run_plan ext hist plan) = inr tt
     /\ map ev_op (snd (run_plan ext hist plan)) = plan
     /\ forallb (fun ev => negb (raised (ev_outcome ev)))
                (snd (run_plan ext hist plan)) = true)
    \/ (exists made op after e,
           fst (run_plan ext hist plan) = inl e
           /\ snd (run_plan ext hist plan) = made ++ [mkEvent op (Raised e)]
           /\ plan = map ev_op made ++ op :: after
           /\ forallb (fun ev => negb (raised (ev_outcome ev))) made = true).
Proof.
  induction plan as [| op rest IH]; intros hist; cbn [run_plan ev_outcome].
  - left. repeat split.
  - destruct (answer_of ext hist op) eqn:Eop;
      try (specialize (IH (hist ++ [mkEvent op (answer_of ext hist op)]));
           rewrite Eop in IH;
           destruct (run_plan ext (hist ++ [mkEvent op _]) rest) as [r evs];
           cbn [fst snd] in *;
           destruct IH as [(Hr & Hops & Hok)
                          | (made & op' & after & x & Hr & Hevs & Hplan & Hok)];
           [ left; cbn [map ev_op forallb ev_outcome raised negb andb];
             rewrite Hops; repeat split; assumption
           | right;
             match type of Eop with
             | _ = ?o => exists (mkEvent op o :: made), op', after, x
             end;
             cbn [map ev_op app forallb ev_outcome raised negb andb];
             rewrite Hevs, Hplan; repeat split; assumption ]).
    right. exists [], op, rest, e. cbn [fst snd map app forallb].
    repeat split.
Qed.

(** No call of [initialize] closes anything. *)
Lemma initialize_plan_no_close (config : Config) (b : bool) :
  forallb (fun op => negb (is_close op)) (initialize_plan config b) = true.
Proof. destruct b; reflexivity. Qed.

Lemma run_plan_forallb (ext : Collaborators) (f : Op -> bool) (plan : list Op) :
  forall hist,
    forallb f plan = true ->
    forallb (fun ev => f (ev_op ev)) (snd (run_plan ext hist plan)) = true.
Proof.
  induction plan as [| op rest IH]; intros hist H; cbn [run_plan ev_outcome].
  - reflexivity.
  - cbn [forallb] in H. apply andb_prop in H. destruct H as [Hop Hrest].
    destruct (answer_of ext hist op) eqn:Eop;
      try (specialize (IH (hist ++ [mkEvent op (answer_of ext hist op)]) Hrest);
           rewrite Eop in IH;
           destruct (run_plan ext (hist ++ [mkEvent op _]) rest) as [r evs];
           cbn [snd forallb ev_op] in *; rewrite Hop, IH; reflexivity).
    cbn [snd forallb ev_op]. rewrite Hop. reflexivity.
Qed.

Section TeardownRefinement.

Variable ext : Collaborators.

Lemma runs_skip (w : World) : runs ext (ret tt) [] w.
Proof.
  unfold runs, ret. cbn [run_plan fst snd]. rewrite app_nil_r.
  destruct w; reflexivity.
Qed.

Lemma runs_call (op : Op) (answer : list Event -> Exn + unit) (w : World) :
  (forall hist,
      answer_of ext hist op = outcome_of (fun _ => ReturnedNone) (answer hist)) ->
  runs ext (call op (fun _ => ReturnedNone) answer) [op] w.
Proof.
  intros H. unfold runs, call. cbn [run_plan ev_outcome]. rewrite H.
  destruct (answer (log w)) as [e | []]; reflexivity.
Qed.

Lemma runs_seq (c1 c2 : M unit) (p1 p2 : list Op) (m : Managers) :
  (forall w, self w = m -> runs ext c1 p1 w) ->
  (forall w, self w = m -> runs ext c2 p2 w) ->
  forall w, self w = m -> runs ext (c1 ;; c2) (p1 ++ p2) w.
Proof.
  intros H1 H2 w Hw. unfold runs, bind.
  rewrite (H1 w Hw), run_plan_app.
  destruct (run_plan ext (log w) p1) as [[e | []] evs]; cbn [fst snd].
  - reflexivity.
  - rewrite (H2 (mkWorld (self w) (log w ++ evs)) Hw). cbn [self log].
    destruct (run_plan ext (log w ++ evs) p2) as [r evs2]. cbn [fst snd].
    rewrite app_assoc. reflexivity.
Qed.

Lemma runs_close_mongo (m : Managers) (w : World) :
  self w = m ->
  runs ext (if_not_None _analytics_mongo
          (c <- attr_of _analytics_mongo "close" ;;
           call (MongoClose c) (fun _ => ReturnedNone)
                (fun hist => mongo_close ext hist c)))
       (mongo_plan (_analytics_mongo m)) w.
Proof.
  intros Hw. subst m.
  cbv beta iota zeta delta
    [runs if_not_None attr_of bind get_self ret raise call].
  cbn [self log].
  destruct (_analytics_mongo (self w)) as [c |] eqn:E;
    cbn beta iota; rewrite ?E;
    cbn [mongo_plan run_plan answer_of ev_outcome self log].
  - destruct (mongo_close ext (log w) c) as [e | []]; reflexivity.
  - cbn [fst snd]. rewrite app_nil_r. destruct w; reflexivity.
Qed.

Lemma runs_close_redis (field : Managers -> option Redis) (m : Managers)
    (w : World) :
  self w = m ->
  runs ext (if_not_None field (close_redis ext field)) (pool_plan (field m)) w.
Proof.
  intros Hw. subst m.
  cbv beta iota zeta delta
    [runs if_not_None close_redis attr_of bind get_self ret raise call].
  cbn [self log].
  destruct (field (self w)) as [p |] eqn:E;
    cbn beta iota; rewrite ?E;
    cbn [pool_plan run_plan answer_of ev_outcome self log].
  - destruct (redis_close ext (log w) p) as [e | []];
      cbn [outcome_of fst snd self log]; rewrite ?E; [reflexivity |].
    destruct (redis_wait_closed ext _ p) as [e | []];
      cbn [outcome_of fst snd]; rewrite app_one_assoc; reflexivity.
  - cbn [fst snd]. rewrite app_nil_r. destruct w; reflexivity.
Qed.

Lemma teardown_runs (m : Managers) :
  forall w, self w = m -> runs ext (teardown ext) (teardown_plan m) w.
Proof.
  unfold teardown, teardown_plan, close_plan.
  change (BaseTeardown :: ?l) with ([BaseTeardown] ++ l).
  apply runs_seq; [intros; apply runs_call; reflexivity |].
  apply runs_seq; [intros; apply runs_close_mongo; assumption |].
  apply runs_seq; [intros; apply runs_close_redis; assumption |].
  apply runs_seq; intros; apply runs_close_redis; assumption.
Qed.

(** [teardown] makes exactly the calls of the plan of the registry it starts
    from, strictly in sequence, and leaves the registry object as it was. *)
Lemma teardown_runs_plan (w : World) :
  teardown ext w
  = (fst (run_plan ext (log w) (teardown_plan (self w))),
     mkWorld (self w)
             (log w ++ snd (run_plan ext (log w) (teardown_plan (self w))))).
Proof. apply (teardown_runs (self w) w). reflexivity. Qed.

End TeardownRefinement.

(** *** Closing calls *)

Lemma close_plan_is_close (m : Managers) :
  Forall (fun op => is_close op = true) (close_plan m).
Proof.
  destruct m as [[c|] [pa|] [pi|] [pd|]];
    cbn [close_plan mongo_plan pool_plan app
         _analytics_mongo _analytics_redis _authorization_ios_redis
         _authorization_android_redis];
    repeat constructor.
Qed.

Lemma ok_ext_closes_succeed : closes_succeed ok_ext.
Proof. intros hist [] H; try discriminate H; reflexivity. Qed.

(** When the base hook and every closing call return, [teardown] returns,
    having made every call of its plan. *)
Lemma teardown_ok (ext : Collaborators) (w : World) :
  super_teardown ext (log w) = inr tt ->
  closes_succeed ext ->
  teardown ext w
  = (inr tt, mkWorld (self w) (log w ++ map done (teardown_plan (self w)))).
Proof.
  intros Hbase Hclose.
  rewrite teardown_runs_plan, run_plan_all_done; [reflexivity |].
  intros before op after E. unfold teardown_plan in E.
  destruct before as [| b before]; cbn [app map] in E |- *;
    inversion E as [[E1 E2]]; subst.
  - rewrite app_nil_r. cbn [answer_of]. rewrite Hbase. reflexivity.
  - apply Hclose.
    pose proof (close_plan_is_close (self w)) as F.
    rewrite Forall_forall in F. apply F. rewrite E2.
    apply in_elt.
Qed.

(** * The accessors *)

Ltac prove_guards field :=
  intros m; split; [split | intros h; split];
  [ intros E; rewrite E; eexists; reflexivity
  | intros [msg E]; destruct (field m); [discriminate E | reflexivity]
  | intros E; rewrite E; reflexivity
  | intros E; destruct (field m); [inversion E; reflexivity | discriminate E] ].

Lemma analytics_mongo_guards : guards _analytics_mongo analytics_mongo.
Proof. unfold analytics_mongo. prove_guards _analytics_mongo. Qed.

Lemma analytics_redis_guards : guards _analytics_redis analytics_redis.
Proof. unfold analytics_redis. prove_guards _analytics_redis. Qed.

Lemma authorization_ios_redis_guards :
  guards _authorization_ios_redis authorization_ios_redis.
Proof.
  unfold authorization_ios_redis. prove_guards _authorization_ios_redis.
Qed.

Lemma authorization_android_redis_guards :
  guards _authorization_android_redis authorization_android_redis.
Proof.
  unfold authorization_android_redis.
  prove_guards _authorization_android_redis.
Qed.

(** C1.  Each of the four accessors raises the uninitialized-access error
    ([RuntimeError]) exactly when its backing handle is absent, and returns
    exactly the stored handle when it is present; its result is never an
    absent value.  In particular all four raise on the registry as it is
    before [initialize] has stored anything. *)
Theorem accessors_guard_their_handles :
  guards _analytics_mongo analytics_mongo
  /\ guards _analytics_redis analytics_redis
  /\ guards _authorization_ios_redis authorization_ios_redis
  /\ guards _authorization_android_redis authorization_android_redis
  /\ analytics_mongo managers
     = inl (RuntimeError "Cannot use MongoDB manager before initializing it.")
  /\ analytics_redis managers
     = inl (RuntimeError "Attempting to use Analytics redis before initialization")
  /\ authorization_ios_redis managers
     = inl (RuntimeError
              "Attempting to use Authorization iOS redis before initialization")
  /\ authorization_android_redis managers
     = inl (RuntimeError
              "Attempting to use Authorization Android redis before initialization").
Proof.
  split; [exact analytics_mongo_guards |].
  split; [exact analytics_redis_guards |].
  split; [exact authorization_ios_redis_guards |].
  split; [exact authorization_android_redis_guards |].
  repeat split.
Qed.

(** * initialize *)

(** C2.  From the uninitialized registry, when [initialize b] returns
    normally the three broker accessors return the pools that the three
    [create_redis_pool] calls returned; the document-store accessor returns
    the client that [connect] returned when [b] is true, and still raises the
    uninitialized-access error when [b] is false. *)
Theorem initialize_then_accessors (config : Config) (ext : Collaborators)
    (b : bool) (w w' : World) :
  self w = managers ->
  initialize config ext b w = (inr tt, w') ->
  exists hm pa pi pd,
    log w' = log w ++ initialize_events config b hm pa pi pd
    /\ analytics_mongo (self w')
       = (if b then inr hm
          else inl (RuntimeError
                      "Cannot use MongoDB manager before initializing it."))
    /\ analytics_redis (self w') = inr pa
    /\ authorization_ios_redis (self w') = inr pi
    /\ authorization_android_redis (self w') = inr pd.
Proof.
  intros Hfresh Hrun.
  destruct (initialize_ok config ext b w w' Hrun) as (hm & pa & pi & pd & E).
  exists hm, pa, pi, pd. subst w'. rewrite Hfresh. cbn [self log].
  destruct b; repeat split.
Qed.

Lemma initialize_then_accessors_witness :
  (exists hm pa pi pd,
      log (snd (initialize test_config ok_ext false start))
      = initialize_events test_config false hm pa pi pd
      /\ analytics_mongo (self (snd (initialize test_config ok_ext false start)))
         = inl (RuntimeError "Cannot use MongoDB manager before initializing it.")
      /\ analytics_redis (self (snd (initialize test_config ok_ext false start)))
         = inr pa
      /\ authorization_ios_redis
           (self (snd (initialize test_config ok_ext false start))) = inr pi
      /\ authorization_android_redis
           (self (snd (initialize test_config ok_ext false start))) = inr pd)
  /\ (exists hm pa pi pd,
      log (snd (initialize test_config ok_ext true start))
      = initialize_events test_config true hm pa pi pd
      /\ analytics_mongo (self (snd (initialize test_config ok_ext true start)))
         = inr hm
      /\ analytics_redis (self (snd (initialize test_config ok_ext true start)))
         = inr pa
      /\ authorization_ios_redis
           (self (snd (initialize test_config ok_ext true start))) = inr pi
      /\ authorization_android_redis
           (self (snd (initialize test_config ok_ext true start))) = inr pd).
Proof.
  split.
  - exact (initialize_then_accessors test_config ok_ext false start
             (snd (initialize test_config ok_ext false start))
             eq_refl eq_refl).
  - exact (initialize_then_accessors test_config ok_ext true start
             (snd (initialize test_config ok_ext true start))
             eq_refl eq_refl).
Defined.

(** C3.  When the base hook has returned (and, with the flag true, [connect]
    has returned client [hm]) and the creation of the analytics broker pool
    raises [e], [initialize] raises [e]; the log ends with that failed call, so
    neither the iOS nor the Android pool creation is attempted (one
    [create_redis_pool] call in all); and what the earlier steps did stays:
    the base hook has run and, with the flag true, the document-store field
    holds [hm].  The three broker fields are as they were. *)
Theorem initialize_analytics_pool_failure (config : Config)
    (ext : Collaborators) (b : bool) (w : World) (hm : MongoClient) (e : Exn) :
  let pre :=
    done BaseInitialize
      :: (if b
          then [mkEvent (Connect (ANALYTICS_MONGO_URL config)) (ReturnedMongo hm)]
          else []) in
  let failed :=
    mkEvent (CreateRedisPool (ANALYTICS_BROKER_REDIS_URL config) encoding_utf8)
            (Raised e) in
  super_initialize ext (log w) = inr tt ->
  (b = true ->
   connect ext (log w ++ [done BaseInitialize]) (ANALYTICS_MONGO_URL config)
   = inr hm) ->
  create_redis_pool ext (log w ++ pre) (ANALYTICS_BROKER_REDIS_URL config)
                    encoding_utf8 = inl e ->
  initialize config ext b w
  = (inl e,
     mkWorld (if b then set__analytics_mongo (Some hm) (self w) else self w)
             (log w ++ pre ++ [failed]))
  /\ length (filter (fun ev => is_create_redis_pool (ev_op ev)) (pre ++ [failed]))
     = 1.
Proof.
  intros pre failed Hbase Hconnect Hpool. subst pre failed.
  destruct w as [m l]. cbn [self log] in *. unfold done in *.
  destruct b; unfold_run; rewrite Hbase; cbn [outcome_of].
  - rewrite (Hconnect eq_refl). cbn [outcome_of self log].
    rewrite ?app_one_assoc. cbn [app] in Hpool. rewrite Hpool.
    cbn [outcome_of app]. rewrite <- ?app_assoc. cbn [app].
    split; reflexivity.
  - cbn [app] in Hpool. rewrite Hpool. cbn [outcome_of app].
    rewrite <- ?app_assoc. cbn [app]. destruct m. split; reflexivity.
Qed.

Lemma initialize_analytics_pool_failure_witness :
  initialize test_config analytics_down_ext true start
  = (inl ConnectionRefusedError,
     mkWorld (mkManagers (Some (mkMongoClient 1)) None None None)
             [done BaseInitialize;
              mkEvent (Connect (ANALYTICS_MONGO_URL test_config))
                      (ReturnedMongo (mkMongoClient 1));
              mkEvent (CreateRedisPool (ANALYTICS_BROKER_REDIS_URL test_config)
                                       encoding_utf8)
                      (Raised ConnectionRefusedError)]).
Proof.
  exact (proj1 (initialize_analytics_pool_failure test_config analytics_down_ext
                  true start (mkMongoClient 1) ConnectionRefusedError
                  eq_refl (fun _ => eq_refl) eq_refl)).
Defined.

(** C6.  [initialize] performs its steps strictly one after the other, in
    the fixed order: the base hook; with the flag true, [connect] with the
    document-store URL; then the pools for the analytics, the iOS and the
    Android broker URLs, each with encoding utf-8.  Its result and the calls
    it logs are those of the sequential run of that list: a step is made
    exactly when every step before it has returned, so either all steps were
    made and returned and [initialize] returns, or the steps were made up to
    one that raised, none after it, and [initialize] raises that exception.
    Every call is answered in the history that holds the completion of all
    the calls before it. *)
Theorem initialize_steps_in_order (config : Config) (ext : Collaborators)
    (b : bool) (w : World) :
  exists evs,
    log (snd (initialize config ext b w)) = log w ++ evs
    /\ (fst (initialize config ext b w), evs)
       = run_plan ext (log w) (initialize_plan config b)
    /\ ((fst (initialize config ext b w) = inr tt
         /\ map ev_op evs = initialize_plan config b
         /\ forallb (fun ev => negb (raised (ev_outcome ev))) evs = true)
        \/ (exists made op after e,
               fst (initialize config ext b w) = inl e
               /\ evs = made ++ [mkEvent op (Raised e)]
               /\ initialize_plan config b = map ev_op made ++ op :: after
               /\ forallb (fun ev => negb (raised (ev_outcome ev))) made = true))
    /\ (exists rest, initialize_plan config b = map ev_op evs ++ rest)
    /\ (fst (initialize config ext b w) = inr tt ->
        map ev_op evs = initialize_plan config b)
    /\ (forall k ev,
           nth_error evs k = Some ev ->
           ev_outcome ev = answer_of ext (log w ++ firstn k evs) (ev_op ev))
    /\ initialize_plan config true
       = [BaseInitialize;
          Connect (ANALYTICS_MONGO_URL config);
          CreateRedisPool (ANALYTICS_BROKER_REDIS_URL config) "utf-8";
          CreateRedisPool (CELERY_BROKER_REDIS_URL_AUTHORIZATION_IOS config)
                          "utf-8";
          CreateRedisPool (CELERY_BROKER_REDIS_URL_AUTHORIZATION_ANDROID config)
                          "utf-8"]
    /\ initialize_plan config false
       = [BaseInitialize;
          CreateRedisPool (ANALYTICS_BROKER_REDIS_URL config) "utf-8";
          CreateRedisPool (CELERY_BROKER_REDIS_URL_AUTHORIZATION_IOS config)
                          "utf-8";
          CreateRedisPool (CELERY_BROKER_REDIS_URL_AUTHORIZATION_ANDROID config)
                          "utf-8"].
Proof.
  destruct (initialize_runs_plan config ext b w) as [Hres Hlog].
  exists (snd (run_plan ext (log w) (initialize_plan config b))).
  split; [exact Hlog |].
  split; [rewrite Hres; symmetry; apply surjective_pairing |].
  split; [rewrite Hres; apply run_plan_progress |].
  split; [apply run_plan_ops |].
  split; [rewrite Hres; apply run_plan_ops |].
  split; [apply run_plan_sequential |].
  split; reflexivity.
Qed.

(** A run in which every call succeeds: all five steps are made, in order,
    and [initialize] returns. *)
Lemma initialize_steps_in_order_witness :
  fst (initialize test_config ok_ext true start) = inr tt
  /\ map ev_op (log (snd (initialize test_config ok_ext true start)))
     = [BaseInitialize;
        Connect (ANALYTICS_MONGO_URL test_config);
        CreateRedisPool (ANALYTICS_BROKER_REDIS_URL test_config) "utf-8";
        CreateRedisPool (CELERY_BROKER_REDIS_URL_AUTHORIZATION_IOS test_config)
                        "utf-8";
        CreateRedisPool
          (CELERY_BROKER_REDIS_URL_AUTHORIZATION_ANDROID test_config) "utf-8"].
Proof.
  destruct (initialize_steps_in_order test_config ok_ext true start)
    as (evs & Hlog & _ & Hprogress & _ & _ & _ & Hplan & _).
  destruct Hprogress
    as [(Hres & Hops & _) | (made & op & after & e & Hres & _)].
  - split; [exact Hres |].
    rewrite Hlog. cbn [log start app]. rewrite Hops. exact Hplan.
  - discriminate Hres.
Defined.

(** C10.  Whatever the registry held before, [initialize] closes nothing;
    with the flag false it leaves the document-store field as it was; and
    when it returns, the three broker fields hold the pools its three
    [create_redis_pool] calls returned, and the document-store field holds
    the new client when the flag is true. *)
Theorem initialize_overwrites_handles (config : Config) (ext : Collaborators)
    (b : bool) (w : World) :
  (exists evs,
      log (snd (initialize config ext b w)) = log w ++ evs
      /\ forallb (fun ev => negb (is_close (ev_op ev))) evs = true)
  /\ (b = false ->
      _analytics_mongo (self (snd (initialize config ext b w)))
      = _analytics_mongo (self w))
  /\ (fst (initialize config ext b w) = inr tt ->
      exists hm pa pi pd,
        log (snd (initialize config ext b w))
        = log w ++ initialize_events config b hm pa pi pd
        /\ self (snd (initialize config ext b w))
           = mkManagers (if b then Some hm else _analytics_mongo (self w))
                        (Some pa) (Some pi) (Some pd)).
Proof.
  split; [| split].
  - exists (snd (run_plan ext (log w) (initialize_plan config b))).
    split; [apply initialize_runs_plan |].
    apply (run_plan_forallb ext (fun op => negb (is_close op))).
    apply initialize_plan_no_close.
  - intros Hb. subst b. destruct w as [m l]. unfold_run.
    repeat (split_answer ext); reflexivity.
  - intros Hok.
    destruct (initialize config ext b w) as [r w'] eqn:E. cbn [fst snd] in *.
    subst r.
    destruct (initialize_ok config ext b w w' E) as (hm & pa & pi & pd & Hw').
    exists hm, pa, pi, pd. subst w'. split; reflexivity.
Qed.

(** A registry that already holds handles, as left by an earlier
    [initialize]. *)
Lemma initialize_overwrites_handles_witness :
  exists hm pa pi pd,
    log (snd (initialize test_config ok_ext false
                (mkWorld (mkManagers (Some (mkMongoClient 7)) (Some (mkRedis 8))
                                     (Some (mkRedis 9)) None) [])))
    = [] ++ initialize_events test_config false hm pa pi pd
    /\ self (snd (initialize test_config ok_ext false
                    (mkWorld (mkManagers (Some (mkMongoClient 7))
                                         (Some (mkRedis 8))
                                         (Some (mkRedis 9)) None) [])))
       = mkManagers (Some (mkMongoClient 7)) (Some pa) (Some pi) (Some pd).
Proof.
  exact (proj2 (proj2 (initialize_overwrites_handles test_config ok_ext false
                  (mkWorld (mkManagers (Some (mkMongoClient 7))
                                       (Some (mkRedis 8))
                                       (Some (mkRedis 9)) None) [])))
           eq_refl).
Defined.

(** * teardown *)

(** A closing call is in the plan exactly when a field holds its handle. *)
Lemma In_mongo_plan (field : option MongoClient) (op : Op) :
  In op (mongo_plan field) <-> exists c, field = Some c /\ op = MongoClose c.
Proof.
  destruct field as [c |]; cbn [mongo_plan In]; split.
  - intros [H | []]. exists c. split; [reflexivity | symmetry; exact H].
  - intros (c' & E & H). inversion E; subst. left. reflexivity.
  - intros [].
  - intros (c' & E & _). discriminate E.
Qed.

Lemma In_pool_plan (field : option Redis) (op : Op) :
  In op (pool_plan field)
  <-> exists p, field = Some p /\ (op = RedisClose p \/ op = RedisWaitClosed p).
Proof.
  destruct field as [p |]; cbn [pool_plan In]; split.
  - intros [H | [H | []]]; exists p; split; try reflexivity;
      [left | right]; symmetry; exact H.
  - intros (p' & E & [H | H]); inversion E; subst; [left | right; left];
      reflexivity.
  - intros [].
  - intros (p' & E & _). discriminate E.
Qed.

Lemma In_teardown_plan (m : Managers) (op : Op) :
  In op (teardown_plan m)
  <-> op = BaseTeardown
      \/ (exists c, _analytics_mongo m = Some c /\ op = MongoClose c)
      \/ (exists p, (_analytics_redis m = Some p
                     \/ _authorization_ios_redis m = Some p
                     \/ _authorization_android_redis m = Some p)
                    /\ (op = RedisClose p \/ op = RedisWaitClosed p)).
Proof.
  unfold teardown_plan, close_plan. cbn [In].
  rewrite !in_app_iff, In_mongo_plan, !In_pool_plan.
  split.
  - intros [H | [H | [(p & E & H) | [(p & E & H) | (p & E & H)]]]].
    + left. symmetry. exact H.
    + right. left. exact H.
    + right. right. exists p. split; [left; exact E | exact H].
    + right. right. exists p. split; [right; left; exact E | exact H].
    + right. right. exists p. split; [right; right; exact E | exact H].
  - intros [H | [H | (p & [E | [E | E]] & H)]].
    + left. symmetry. exact H.
    + right. left. exact H.
    + right. right. left. exists p. split; assumption.
    + right. right. right. left. exists p. split; assumption.
    + right. right. right. right. exists p. split; assumption.
Qed.





(** C8.  When the calls of [teardown] before some call [op] have returned
    and [op] raises [e], [teardown] raises [e] and the log ends with the
    failed call: none of the calls after it in the fixed sequence (document
    store, then analytics, iOS, Android pools) is attempted. *)
Theorem teardown_close_failure_aborts (ext : Collaborators) (w : World)
    (before : list Op) (op : Op) (after : list Op) (e : Exn) :
  teardown_plan (self w) = before ++ op :: after ->
  run_plan ext (log w) before = (inr tt, map done before) ->
  answer_of ext (log w ++ map done before) op = Raised e ->
  teardown ext w
  = (inl e,
     mkWorld (self w) (log w ++ map done before ++ [mkEvent op (Raised e)])).
Proof.
  intros Hplan Hbefore Hop.
  rewrite teardown_runs_plan, Hplan.
  rewrite (run_plan_stops ext before (log w) op after e Hbefore Hop).
  reflexivity.
Qed.

Lemma teardown_close_failure_aborts_witness :
  teardown (wait_fails_ext 3) ios_wait_fails
  = (inl ConnectionClosedError,
     mkWorld (self ios_wait_fails)
             (log ios_wait_fails
              ++ map done [BaseTeardown;
                           MongoClose (mkMongoClient 1);
                           RedisClose (mkRedis 2); RedisWaitClosed (mkRedis 2);
                           RedisClose (mkRedis 3)]
              ++ [mkEvent (RedisWaitClosed (mkRedis 3))
                          (Raised ConnectionClosedError)])).
Proof.
  exact (teardown_close_failure_aborts (wait_fails_ext 3) ios_wait_fails
           [BaseTeardown;
            MongoClose (mkMongoClient 1);
            RedisClose (mkRedis 2); RedisWaitClosed (mkRedis 2);
            RedisClose (mkRedis 3)]
           (RedisWaitClosed (mkRedis 3))
           [RedisClose (mkRedis 4); RedisWaitClosed (mkRedis 4)]
           ConnectionClosedError eq_refl eq_refl eq_refl).
Defined.

(** C9.  [teardown] never resets a handle field: whatever the registry held
    and however [teardown] ended, the registry object is the same afterwards,
    field by field.  A second [teardown] therefore runs the same plan on the
    same handles; when the hook and the closing calls keep returning, every
    closing call is made a second time. *)
Theorem teardown_keeps_handles (ext : Collaborators) (w : World) :
  self (snd (teardown ext w)) = self w
  /\ _analytics_mongo (self (snd (teardown ext w))) = _analytics_mongo (self w)
  /\ _analytics_redis (self (snd (teardown ext w))) = _analytics_redis (self w)
  /\ _authorization_ios_redis (self (snd (teardown ext w)))
     = _authorization_ios_redis (self w)
  /\ _authorization_android_redis (self (snd (teardown ext w)))
     = _authorization_android_redis (self w)
  /\ teardown ext (snd (teardown ext w))
     = (fst (run_plan ext (log (snd (teardown ext w))) (teardown_plan (self w))),
        mkWorld (self w)
                (log (snd (teardown ext w))
                 ++ snd (run_plan ext (log (snd (teardown ext w)))
                                  (teardown_plan (self w)))))
  /\ ((forall hist, super_teardown ext hist = inr tt) ->
      closes_succeed ext ->
      log (snd (teardown ext (snd (teardown ext w))))
      = log w ++ map done (teardown_plan (self w))
              ++ map done (teardown_plan (self w))).
Proof.
  assert (Hself : self (snd (teardown ext w)) = self w)
    by (rewrite teardown_runs_plan; reflexivity).
  split; [exact Hself |].
  rewrite Hself.
  repeat (split; [reflexivity |]).
  split.
  - rewrite (teardown_runs_plan ext (snd (teardown ext w))), Hself.
    reflexivity.
  - intros Hbase Hclose.
    rewrite (teardown_ok ext w (Hbase _) Hclose). cbn [snd].
    rewrite teardown_ok; [| apply Hbase | exact Hclose].
    cbn [snd self log]. rewrite <- app_assoc. reflexivity.
Qed.

Lemma teardown_keeps_handles_witness :
  log (snd (teardown ok_ext
              (snd (teardown ok_ext
                      (mkWorld (mkManagers None (Some (mkRedis 5)) None None)
                               [])))))
  = [done BaseTeardown;
     done (RedisClose (mkRedis 5)); done (RedisWaitClosed (mkRedis 5));
     done BaseTeardown;
     done (RedisClose (mkRedis 5)); done (RedisWaitClosed (mkRedis 5))].
Proof.
  exact (proj2 (proj2 (proj2 (proj2 (proj2 (proj2
           (teardown_keeps_handles ok_ext
              (mkWorld (mkManagers None (Some (mkRedis 5)) None None) [])))))))
           (fun _ => eq_refl) ok_ext_closes_succeed).
Defined.

(** C5, as stated, fails: after [initialize(True)] and a [teardown] that
    completed, none of the four accessors raises; each returns the handle
    that was closed. *)
Lemma accessors_after_teardown_counterexample :
  fst after_lifecycle = inr tt
  /\ analytics_mongo (self (snd after_lifecycle)) = inr (mkMongoClient 1)
  /\ analytics_redis (self (snd after_lifecycle)) = inr (mkRedis 2)
  /\ authorization_ios_redis (self (snd after_lifecycle)) = inr (mkRedis 3)
  /\ authorization_android_redis (self (snd after_lifecycle)) = inr (mkRedis 4).
Proof. repeat split. Qed.

(** C5, amended.  After [teardown], however it ended, every accessor gives
    what it gave before [teardown]: it returns the handle (now closed) when
    the handle was present, and raises the uninitialized-access error only
    when the handle was absent already; so on a registry that was never
    initialized all four still raise. *)
Theorem accessors_unchanged_by_teardown (ext : Collaborators) (w : World) :
  analytics_mongo (self (snd (teardown ext w))) = analytics_mongo (self w)
  /\ analytics_redis (self (snd (teardown ext w))) = analytics_redis (self w)
  /\ authorization_ios_redis (self (snd (teardown ext w)))
     = authorization_ios_redis (self w)
  /\ authorization_android_redis (self (snd (teardown ext w)))
     = authorization_android_redis (self w)
  /\ (self w = managers ->
      (exists msg,
          analytics_mongo (self (snd (teardown ext w)))
          = inl (RuntimeError msg))
      /\ (exists msg,
             analytics_redis (self (snd (teardown ext w)))
             = inl (RuntimeError msg))
      /\ (exists msg,
             authorization_ios_redis (self (snd (teardown ext w)))
             = inl (RuntimeError msg))
      /\ (exists msg,
             authorization_android_redis (self (snd (teardown ext w)))
             = inl (RuntimeError msg))).
Proof.
  rewrite teardown_runs_plan. cbn [snd self].
  repeat (split; [reflexivity |]).
  intros Hfresh. rewrite Hfresh.
  repeat split; eexists; reflexivity.
Qed.

Lemma accessors_unchanged_by_teardown_witness :
  (exists msg,
      analytics_mongo (self (snd (teardown ok_ext start)))
      = inl (RuntimeError msg))
  /\ (exists msg,
         analytics_redis (self (snd (teardown ok_ext start)))
         = inl (RuntimeError msg))
  /\ (exists msg,
         authorization_ios_redis (self (snd (teardown ok_ext start)))
         = inl (RuntimeError msg))
  /\ (exists msg,
         authorization_android_redis (self (snd (teardown ok_ext start)))
         = inl (RuntimeError msg)).
Proof.
  exact (proj2 (proj2 (proj2 (proj2
           (accessors_unchanged_by_teardown ok_ext start)))) eq_refl).
Defined.

(** * Further properties of initialize *)

(** Bring a log to the form [l ++ [e1; ...; en]]. *)
Ltac norm_log := rewrite <- ?app_assoc; cbn [app].

(** Use the answer [H] of the next call. *)
Ltac answer_with H :=
  norm_log; rewrite H; cbn [outcome_of self log fst snd].

(** X1.  When the base initialization hook raises [e], [initialize] raises
    [e] at once: no connection is attempted, whatever the flag, and the
    registry is exactly as it was. *)
Theorem initialize_base_hook_failure (config : Config) (ext : Collaborators)
    (b : bool) (w : World) (e : Exn) :
  super_initialize ext (log w) = inl e ->
  initialize config ext b w
  = (inl e, mkWorld (self w) (log w ++ [mkEvent BaseInitialize (Raised e)])).
Proof.
  intros Hbase. destruct w as [m l]. cbn [self log] in *.
  unfold_run. rewrite Hbase. reflexivity.
Qed.

Lemma initialize_base_hook_failure_witness :
  initialize test_config (fails_at 0) true start
  = (inl TimeoutError,
     mkWorld managers [mkEvent BaseInitialize (Raised TimeoutError)]).
Proof.
  exact (initialize_base_hook_failure test_config (fails_at 0) true start
           TimeoutError eq_refl).
Defined.

(** X2.  With the flag true, when the base hook has returned and [connect]
    raises [e], [initialize] raises [e]: no broker pool is created and no
    field of the registry is assigned. *)
Theorem initialize_connect_failure (config : Config) (ext : Collaborators)
    (w : World) (e : Exn) :
  super_initialize ext (log w) = inr tt ->
  connect ext (log w ++ [done BaseInitialize]) (ANALYTICS_MONGO_URL config)
  = inl e ->
  initialize config ext true w
  = (inl e,
     mkWorld (self w)
             (log w ++ [done BaseInitialize;
                        mkEvent (Connect (ANALYTICS_MONGO_URL config))
                                (Raised e)])).
Proof.
  intros Hbase Hconnect. destruct w as [m l]. cbn [self log] in *.
  unfold done in *. unfold_run. rewrite Hbase. cbn [outcome_of].
  rewrite Hconnect. cbn [outcome_of]. rewrite app_one_assoc. reflexivity.
Qed.

Lemma initialize_connect_failure_witness :
  initialize test_config (fails_at 1) true start
  = (inl TimeoutError,
     mkWorld managers
             [done BaseInitialize;
              mkEvent (Connect (ANALYTICS_MONGO_URL test_config))
                      (Raised TimeoutError)]).
Proof.
  exact (initialize_connect_failure test_config (fails_at 1) start TimeoutError
           eq_refl eq_refl).
Defined.

(** X3.  When the analytics pool [pa] has been created and the creation of
    the iOS pool raises [e], [initialize] raises [e] with the analytics field
    already holding [pa] (and, with the flag true, the document-store field
    holding [hm]): the analytics accessor returns [pa], the iOS and Android
    fields are as they were, and the Android pool creation is not
    attempted. *)
Theorem initialize_ios_pool_failure (config : Config) (ext : Collaborators)
    (b : bool) (w : World) (hm : MongoClient) (pa : Redis) (e : Exn) :
  let opened :=
    done BaseInitialize
      :: (if b
          then [mkEvent (Connect (ANALYTICS_MONGO_URL config)) (ReturnedMongo hm)]
          else []) in
  let pre :=
    opened
      ++ [mkEvent (CreateRedisPool (ANALYTICS_BROKER_REDIS_URL config)
                                   encoding_utf8)
                  (ReturnedRedis pa)] in
  let failed :=
    mkEvent (CreateRedisPool (CELERY_BROKER_REDIS_URL_AUTHORIZATION_IOS config)
                             encoding_utf8)
            (Raised e) in
  super_initialize ext (log w) = inr tt ->
  (b = true ->
   connect ext (log w ++ [done BaseInitialize]) (ANALYTICS_MONGO_URL config)
   = inr hm) ->
  create_redis_pool ext (log w ++ opened)
                    (ANALYTICS_BROKER_REDIS_URL config) encoding_utf8 = inr pa ->
  create_redis_pool ext (log w ++ pre)
                    (CELERY_BROKER_REDIS_URL_AUTHORIZATION_IOS config)
                    encoding_utf8 = inl e ->
  initialize config ext b w
  = (inl e,
     mkWorld (set__analytics_redis (Some pa)
                (if b then set__analytics_mongo (Some hm) (self w) else self w))
             (log w ++ pre ++ [failed]))
  /\ analytics_redis (self (snd (initialize config ext b w))) = inr pa
  /\ authorization_ios_redis (self (snd (initialize config ext b w)))
     = authorization_ios_redis (self w)
  /\ authorization_android_redis (self (snd (initialize config ext b w)))
     = authorization_android_redis (self w).
Proof.
  intros opened pre failed Hbase Hconnect Hpa Hpi. subst opened pre failed.
  destruct w as [m l]. cbn [self log] in *. unfold done in *.
  destruct b; cbn [app] in Hpa, Hpi; unfold_run.
  - answer_with Hbase. answer_with (Hconnect eq_refl). answer_with Hpa.
    answer_with Hpi. norm_log. repeat split.
  - answer_with Hbase. answer_with Hpa. answer_with Hpi. norm_log.
    repeat split.
Qed.

Lemma initialize_ios_pool_failure_witness :
  initialize test_config (fails_at 3) true start
  = (inl TimeoutError,
     mkWorld (mkManagers (Some (mkMongoClient 1)) (Some (mkRedis 2)) None None)
             [done BaseInitialize;
              mkEvent (Connect (ANALYTICS_MONGO_URL test_config))
                      (ReturnedMongo (mkMongoClient 1));
              mkEvent (CreateRedisPool (ANALYTICS_BROKER_REDIS_URL test_config)
                                       encoding_utf8)
                      (ReturnedRedis (mkRedis 2));
              mkEvent (CreateRedisPool
                         (CELERY_BROKER_REDIS_URL_AUTHORIZATION_IOS test_config)
                         encoding_utf8)
                      (Raised TimeoutError)]).
Proof.
  exact (proj1 (initialize_ios_pool_failure test_config (fails_at 3) true start
                  (mkMongoClient 1) (mkRedis 2) TimeoutError
                  eq_refl (fun _ => eq_refl) eq_refl eq_refl)).
Defined.

(** X4.  When the analytics pool [pa] and the iOS pool [pi] have been created
    and the creation of the Android pool raises [e], [initialize] raises [e]
    with both pools already stored: their accessors return them, while the
    Android field is as it was. *)
Theorem initialize_android_pool_failure (config : Config)
    (ext : Collaborators) (b : bool) (w : World) (hm : MongoClient)
    (pa pi : Redis) (e : Exn) :
  let opened :=
    done BaseInitialize
      :: (if b
          then [mkEvent (Connect (ANALYTICS_MONGO_URL config)) (ReturnedMongo hm)]
          else []) in
  let analytics :=
    mkEvent (CreateRedisPool (ANALYTICS_BROKER_REDIS_URL config) encoding_utf8)
            (ReturnedRedis pa) in
  let ios :=
    mkEvent (CreateRedisPool (CELERY_BROKER_REDIS_URL_AUTHORIZATION_IOS config)
                             encoding_utf8)
            (ReturnedRedis pi) in
  let failed :=
    mkEvent (CreateRedisPool
               (CELERY_BROKER_REDIS_URL_AUTHORIZATION_ANDROID config)
               encoding_utf8)
            (Raised e) in
  super_initialize ext (log w) = inr tt ->
  (b = true ->
   connect ext (log w ++ [done BaseInitialize]) (ANALYTICS_MONGO_URL config)
   = inr hm) ->
  create_redis_pool ext (log w ++ opened)
                    (ANALYTICS_BROKER_REDIS_URL config) encoding_utf8 = inr pa ->
  create_redis_pool ext (log w ++ opened ++ [analytics])
                    (CELERY_BROKER_REDIS_URL_AUTHORIZATION_IOS config)
                    encoding_utf8 = inr pi ->
  create_redis_pool ext (log w ++ opened ++ [analytics; ios])
                    (CELERY_BROKER_REDIS_URL_AUTHORIZATION_ANDROID config)
                    encoding_utf8 = inl e ->
  initialize config ext b w
  = (inl e,
     mkWorld (set__authorization_ios_redis (Some pi)
                (set__analytics_redis (Some pa)
                   (if b then set__analytics_mongo (Some hm) (self w)
                    else self w)))
             (log w ++ opened ++ [analytics; ios; failed]))
  /\ analytics_redis (self (snd (initialize config ext b w))) = inr pa
  /\ authorization_ios_redis (self (snd (initialize config ext b w))) = inr pi
  /\ authorization_android_redis (self (snd (initialize config ext b w)))
     = authorization_android_redis (self w).
Proof.
  intros opened analytics ios failed Hbase Hconnect Hpa Hpi Hpd.
  subst opened analytics ios failed.
  destruct w as [m l]. cbn [self log] in *. unfold done in *.
  destruct b; cbn [app] in Hpa, Hpi, Hpd; unfold_run.
  - answer_with Hbase. answer_with (Hconnect eq_refl). answer_with Hpa.
    answer_with Hpi. answer_with Hpd. norm_log. repeat split.
  - answer_with Hbase. answer_with Hpa. answer_with Hpi. answer_with Hpd.
    norm_log. repeat split.
Qed.

Lemma initialize_android_pool_failure_witness :
  initialize test_config (fails_at 3) false start
  = (inl TimeoutError,
     mkWorld (mkManagers None (Some (mkRedis 1)) (Some (mkRedis 2)) None)
             [done BaseInitialize;
              mkEvent (CreateRedisPool (ANALYTICS_BROKER_REDIS_URL test_config)
                                       encoding_utf8)
                      (ReturnedRedis (mkRedis 1));
              mkEvent (CreateRedisPool
                         (CELERY_BROKER_REDIS_URL_AUTHORIZATION_IOS test_config)
                         encoding_utf8)
                      (ReturnedRedis (mkRedis 2));
              mkEvent (CreateRedisPool
                         (CELERY_BROKER_REDIS_URL_AUTHORIZATION_ANDROID
                            test_config)
                         encoding_utf8)
                      (Raised TimeoutError)]).
Proof.
  exact (proj1 (initialize_android_pool_failure test_config (fails_at 3) false
                  start (mkMongoClient 0) (mkRedis 1) (mkRedis 2) TimeoutError
                  eq_refl (fun H => match Bool.diff_false_true H with end)
                  eq_refl eq_refl eq_refl)).
Defined.

(** *** Where an exception comes from *)

(** A run that raises stopped at a call of its plan that raised that very
    exception; every call logged before it returned. *)
Lemma run_plan_raised (ext : Collaborators) (plan : list Op) :
  forall hist e,
    fst (run_plan ext hist plan) = inl e ->
    exists evs op after,
      plan = map ev_op evs ++ op :: after
      /\ snd (run_plan ext hist plan) = evs ++ [mkEvent op (Raised e)]
      /\ forallb (fun ev => negb (raised (ev_outcome ev))) evs = true
      /\ answer_of ext (hist ++ evs) op = Raised e.
Proof.
  induction plan as [| op rest IH]; intros hist e; cbn [run_plan ev_outcome].
  - intros H; discriminate H.
  - destruct (answer_of ext hist op) eqn:Eop;
      try (specialize (IH (hist ++ [mkEvent op (answer_of ext hist op)]) e);
           rewrite Eop in IH;
           destruct (run_plan ext (hist ++ [mkEvent op _]) rest) as [r evs];
           cbn [fst snd] in *; intros Hr;
           destruct (IH Hr) as (evs' & op' & after & Hplan & Hevs & Hok & Hop);
           match type of Eop with
           | _ = ?o => exists (mkEvent op o :: evs'), op', after
           end;
           cbn [map ev_op app forallb ev_outcome raised negb andb];
           rewrite Hplan, Hevs; rewrite app_one_assoc in Hop;
           repeat split; assumption || reflexivity).
    cbn [fst snd]. intros H. inversion H; subst.
    exists [], op, rest. cbn [map app forallb]. rewrite app_nil_r.
    repeat split. exact Eop.
Qed.

(** X5.  [initialize] raises nothing of its own: whenever it raises [e], the
    last call it made is a call of its plan that raised [e], every call
    before it returned, and the calls after it in the plan were not made. *)
Theorem initialize_raises_what_a_call_raised (config : Config)
    (ext : Collaborators) (b : bool) (w w' : World) (e : Exn) :
  initialize config ext b w = (inl e, w') ->
  exists evs op after,
    initialize_plan config b = map ev_op evs ++ op :: after
    /\ log w' = log w ++ evs ++ [mkEvent op (Raised e)]
    /\ forallb (fun ev => negb (raised (ev_outcome ev))) evs = true
    /\ answer_of ext (log w ++ evs) op = Raised e.
Proof.
  intros Hrun.
  destruct (initialize_runs_plan config ext b w) as [Hres Hlog].
  rewrite Hrun in Hres, Hlog. cbn [fst snd] in Hres, Hlog.
  destruct (run_plan_raised ext (initialize_plan config b) (log w) e
              (eq_sym Hres))
    as (evs & op & after & Hplan & Hevs & Hok & Hop).
  exists evs, op, after. rewrite Hlog, Hevs. repeat split; assumption.
Qed.

Lemma initialize_raises_what_a_call_raised_witness :
  exists evs op after,
    initialize_plan test_config true = map ev_op evs ++ op :: after
    /\ log (snd (initialize test_config (fails_at 2) true start))
       = log start ++ evs ++ [mkEvent op (Raised TimeoutError)]
    /\ forallb (fun ev => negb (raised (ev_outcome ev))) evs = true
    /\ answer_of (fails_at 2) (log start ++ evs) op = Raised TimeoutError.
Proof.
  exact (initialize_raises_what_a_call_raised test_config (fails_at 2) true
           start (snd (initialize test_config (fails_at 2) true start))
           TimeoutError eq_refl).
Defined.

(** * Further properties of teardown *)

(** A call of [teardown] returns nothing or raises. *)
Lemma teardown_call_answer (ext : Collaborators) (hist : list Event) (op : Op) :
  is_teardown_call op = true ->
  answer_of ext hist op = ReturnedNone
  \/ exists e, answer_of ext hist op = Raised e.
Proof.
  destruct op; cbn [is_teardown_call answer_of]; intros H;
    try discriminate H;
    match goal with
    | |- context [outcome_of _ ?a] => destruct a as [e | []]
    end; cbn [outcome_of]; eauto.
Qed.

Lemma teardown_plan_calls (m : Managers) :
  forallb is_teardown_call (teardown_plan m) = true.
Proof. destruct m as [[c|] [pa|] [pi|] [pd|]]; reflexivity. Qed.

(** A run of calls of [teardown] that raises: the calls before the failing
    one all returned nothing. *)
Lemma run_plan_teardown_raised (ext : Collaborators) (plan : list Op) :
  forall hist e,
    forallb is_teardown_call plan = true ->
    fst (run_plan ext hist plan) = inl e ->
    exists before op after,
      plan = before ++ op :: after
      /\ snd (run_plan ext hist plan)
         = map done before ++ [mkEvent op (Raised e)]
      /\ answer_of ext (hist ++ map done before) op = Raised e.
Proof.
  induction plan as [| op rest IH]; intros hist e Hcalls;
    cbn [run_plan ev_outcome].
  - intros H; discriminate H.
  - cbn [forallb] in Hcalls. apply andb_prop in Hcalls.
    destruct Hcalls as [Hop Hrest].
    destruct (teardown_call_answer ext hist op Hop) as [E | [x E]]; rewrite E.
    + specialize (IH (hist ++ [mkEvent op ReturnedNone]) e Hrest).
      destruct (run_plan ext (hist ++ [mkEvent op ReturnedNone]) rest)
        as [r evs].
      cbn [fst snd] in *. intros Hr.
      destruct (IH Hr) as (before & op' & after & Hplan & Hevs & Hraise).
      exists (op :: before), op', after. cbn [map app].
      rewrite Hplan, Hevs. rewrite app_one_assoc in Hraise.
      repeat split. exact Hraise.
    + cbn [fst snd]. intros H. inversion H; subst.
      exists [], op, rest. cbn [map app]. rewrite app_nil_r.
      repeat split. exact E.
Qed.

(** X6.  [teardown] raises nothing of its own (in particular no error from
    calling [close] on an absent handle): whenever it raises [e], the last
    call it made is a call of its plan that raised [e], every call before it
    returned, the later ones were not made, and the registry is as it
    was. *)
Theorem teardown_raises_what_a_call_raised (ext : Collaborators)
    (w w' : World) (e : Exn) :
  teardown ext w = (inl e, w') ->
  exists before op after,
    teardown_plan (self w) = before ++ op :: after
    /\ w' = mkWorld (self w)
                    (log w ++ map done before ++ [mkEvent op (Raised e)])
    /\ answer_of ext (log w ++ map done before) op = Raised e.
Proof.
  intros Hrun. rewrite teardown_runs_plan in Hrun.
  pose proof (f_equal fst Hrun) as Hres. pose proof (f_equal snd Hrun) as Hw'.
  cbn [fst snd] in Hres, Hw'.
  destruct (run_plan_teardown_raised ext (teardown_plan (self w)) (log w) e
              (teardown_plan_calls (self w)) Hres)
    as (before & op & after & Hplan & Hevs & Hraise).
  exists before, op, after. subst w'. rewrite Hevs.
  repeat split; assumption.
Qed.

Lemma teardown_raises_what_a_call_raised_witness :
  exists before op after,
    teardown_plan (self ios_wait_fails) = before ++ op :: after
    /\ snd (teardown (wait_fails_ext 3) ios_wait_fails)
       = mkWorld (self ios_wait_fails)
                 (log ios_wait_fails ++ map done before
                  ++ [mkEvent op (Raised ConnectionClosedError)])
    /\ answer_of (wait_fails_ext 3) (log ios_wait_fails ++ map done before) op
       = Raised ConnectionClosedError.
Proof.
  exact (teardown_raises_what_a_call_raised (wait_fails_ext 3) ios_wait_fails
           (snd (teardown (wait_fails_ext 3) ios_wait_fails))
           ConnectionClosedError eq_refl).
Defined.

(** X13.  On a registry that holds no handle (before any [initialize]),
    [teardown] makes one call, the base teardown hook, and ends as the hook
    ends: it returns when the hook returns and raises what the hook
    raises. *)
Theorem teardown_of_empty_registry (ext : Collaborators) (w : World) :
  self w = managers ->
  teardown ext w
  = (super_teardown ext (log w),
     mkWorld managers
             (log w ++ [mkEvent BaseTeardown
                                (outcome_of (fun _ => ReturnedNone)
                                            (super_teardown ext (log w)))])).
Proof.
  intros Hfresh. rewrite teardown_runs_plan, Hfresh.
  cbn [teardown_plan close_plan mongo_plan pool_plan managers app
       _analytics_mongo _analytics_redis _authorization_ios_redis
       _authorization_android_redis run_plan answer_of ev_outcome].
  destruct (super_teardown ext (log w)) as [e | []]; reflexivity.
Qed.

Lemma teardown_of_empty_registry_witness :
  teardown (fails_at 0) start
  = (inl TimeoutError,
     mkWorld managers [mkEvent BaseTeardown (Raised TimeoutError)]).
Proof.
  exact (teardown_of_empty_registry (fails_at 0) start eq_refl).
Defined.

(** * The lifecycle as a whole *)

(** What [teardown] has to close: the plan of a registry in terms of the
    handles it holds. *)
Lemma teardown_plan_present (m : Managers) :
  teardown_plan m
  = BaseTeardown
      :: map MongoClose (present (_analytics_mongo m))
      ++ flat_map close_calls (present_pools m).
Proof. destruct m as [[c|] [pa|] [pi|] [pd|]]; reflexivity. Qed.

(** Started on the empty registry, [initialize] stores every handle it
    obtains, however it ends. *)
Lemma initialize_stores_what_it_obtains (config : Config) (ext : Collaborators)
    (b : bool) (l : list Event) :
  exists evs,
    log (snd (initialize config ext b (mkWorld managers l))) = l ++ evs
    /\ present (_analytics_mongo
                  (self (snd (initialize config ext b (mkWorld managers l)))))
       = created_clients evs
    /\ present_pools (self (snd (initialize config ext b (mkWorld managers l))))
       = created_pools evs.
Proof.
  destruct b; unfold_run; repeat (split_answer ext);
    norm_log; eexists; (split; [reflexivity | split; reflexivity]).
Qed.

(** X7.  Nothing obtained is lost in one lifecycle: started on the empty
    registry, however [initialize] ends (returning, or raising at any step),
    the calls a following [teardown] has to make are the base hook, then
    [close] on every document-store client [initialize] obtained, then
    [close] and [wait_closed] on every pool it obtained, in the order of
    creation; nothing else. *)
Theorem teardown_closes_what_initialize_obtained (config : Config)
    (ext : Collaborators) (b : bool) (w : World) :
  self w = managers ->
  exists evs,
    log (snd (initialize config ext b w)) = log w ++ evs
    /\ teardown_plan (self (snd (initialize config ext b w)))
       = BaseTeardown
           :: map MongoClose (created_clients evs)
           ++ flat_map close_calls (created_pools evs).
Proof.
  intros Hfresh. destruct w as [m l]. cbn [self log] in *. subst m.
  destruct (initialize_stores_what_it_obtains config ext b l)
    as (evs & Hlog & Hclients & Hpools).
  exists evs. split; [exact Hlog |].
  rewrite teardown_plan_present, Hclients, Hpools. reflexivity.
Qed.

Lemma teardown_closes_what_initialize_obtained_witness :
  exists evs,
    log (snd (initialize test_config (fails_at 3) true start))
    = log start ++ evs
    /\ teardown_plan (self (snd (initialize test_config (fails_at 3) true start)))
       = BaseTeardown
           :: map MongoClose (created_clients evs)
           ++ flat_map close_calls (created_pools evs).
Proof.
  exact (teardown_closes_what_initialize_obtained test_config (fails_at 3) true
           start eq_refl).
Defined.



(** *** Closing each handle once *)








(** A run of calls of [teardown] that returns logged every call of the plan
    as returned. *)
Lemma run_plan_teardown_returned (ext : Collaborators) (plan : list Op) :
  forall hist,
    forallb is_teardown_call plan = true ->
    fst (run_plan ext hist plan) = inr tt ->
    snd (run_plan ext hist plan) = map done plan.
Proof.
  induction plan as [| op rest IH]; intros hist Hcalls;
    cbn [run_plan ev_outcome map].
  - reflexivity.
  - cbn [forallb] in Hcalls. apply andb_prop in Hcalls.
    destruct Hcalls as [Hop Hrest].
    destruct (teardown_call_answer ext hist op Hop) as [E | [x E]]; rewrite E.
    + specialize (IH (hist ++ [mkEvent op ReturnedNone]) Hrest).
      destruct (run_plan ext (hist ++ [mkEvent op ReturnedNone]) rest)
        as [r evs].
      cbn [fst snd] in *. intros Hr. rewrite (IH Hr). reflexivity.
    + cbn [fst]. intros H. discriminate H.
Qed.

(** X10.  A closed document-store client survives a restart without the
    flag: when the registry holds client [hm], [teardown] returns and
    [initialize] is then called with the flag false and returns, the
    document-store accessor returns [hm] (it does not raise), although
    [close] has been called on [hm]. *)
Theorem closed_client_survives_reinitialize (config : Config)
    (ext : Collaborators) (w w1 w2 : World) (hm : MongoClient) :
  _analytics_mongo (self w) = Some hm ->
  teardown ext w = (inr tt, w1) ->
  initialize config ext false w1 = (inr tt, w2) ->
  analytics_mongo (self w2) = inr hm
  /\ In (done (MongoClose hm)) (log w2).
Proof.
  intros Hhm Hdown Hup.
  rewrite teardown_runs_plan in Hdown.
  pose proof (f_equal fst Hdown) as Hres.
  pose proof (f_equal snd Hdown) as Hw1. cbn [fst snd] in Hres, Hw1.
  rewrite (run_plan_teardown_returned ext _ _ (teardown_plan_calls (self w))
             Hres) in Hw1.
  destruct (initialize_ok config ext false w1 w2 Hup)
    as (hm' & pa & pi & pd & E).
  subst w2 w1. cbn [self log]. unfold analytics_mongo.
  cbn [_analytics_mongo]. rewrite Hhm. split; [reflexivity |].
  apply in_or_app. left. apply in_or_app. right.
  apply in_map. apply In_teardown_plan. right. left.
  exists hm. split; [exact Hhm | reflexivity].
Qed.

Lemma closed_client_survives_reinitialize_witness :
  analytics_mongo
    (self (snd (initialize test_config ok_ext false (snd after_lifecycle))))
  = inr (mkMongoClient 1)
  /\ In (done (MongoClose (mkMongoClient 1)))
        (log (snd (initialize test_config ok_ext false (snd after_lifecycle)))).
Proof.
  exact (closed_client_survives_reinitialize test_config ok_ext
           (snd (initialize test_config ok_ext true start))
           (snd after_lifecycle)
           (snd (initialize test_config ok_ext false (snd after_lifecycle)))
           (mkMongoClient 1) eq_refl eq_refl eq_refl).
Defined.

(** X11.  With the flag false [initialize] never calls [connect], however
    it ends: the document store is not contacted. *)
Theorem initialize_without_flag_never_connects (config : Config)
    (ext : Collaborators) (w : World) :
  exists evs,
    log (snd (initialize config ext false w)) = log w ++ evs
    /\ forallb (fun ev => negb (is_connect (ev_op ev))) evs = true
    /\ created_clients evs = [].
Proof.
  destruct w as [m l]. unfold_run. repeat (split_answer ext);
    norm_log; eexists; (split; [reflexivity | split; reflexivity]).
Qed.

(** X12.  [teardown] opens nothing: however it ends, every call it makes is
    the base teardown hook, a [close] or a [wait_closed]; it never calls
    [connect], [create_redis_pool] or the initialization hook. *)
Theorem teardown_only_closes (ext : Collaborators) (w : World) :
  exists evs,
    log (snd (teardown ext w)) = log w ++ evs
    /\ forallb (fun ev => is_teardown_call (ev_op ev)) evs = true.
Proof.
  exists (snd (run_plan ext (log w) (teardown_plan (self w)))).
  rewrite teardown_runs_plan. cbn [snd log]. split; [reflexivity |].
  apply (run_plan_forallb ext is_teardown_call).
  apply teardown_plan_calls.
Qed.
